(** * A FastAPI landing-page service: model and verified properties

    The development follows [src/app/main.py]: the port configuration read
    from the environment, the HTML template of the landing page, the two
    route handlers, the request-logging middleware and the startup hook.

    Python values are modelled as follows.
    - [str] is [string]; a character outside ASCII stands as its UTF-8 bytes.
    - [int] is [Z] (Python integers are unbounded).
    - A computation that can raise returns [exn + A]: [inl e] is the raised
      exception, [inr a] the value.
    - Code that logs or raises after logging runs in the monad [M], which
      threads the process state and keeps the state reached when an
      exception is raised. *)

From Stdlib Require Import ZArith String Ascii List Bool Lia.
From Stdlib Require Import Decimal DecimalString DecimalFacts DecimalN DecimalZ.
Import ListNotations.
Local Open Scope string_scope.
Local Open Scope Z_scope.

(** ** Strings *)

(** The double-quote character, and a text between double quotes. *)
Definition dquote : ascii := "034"%char.

Definition q (s : string) : string :=
  String dquote (s ++ String dquote EmptyString).

(** The line-feed character. *)
Definition newline : ascii := "010"%char.

(** [unlines ls] joins the lines with a line feed between two neighbours
    (Python's ["\n".join(ls)]): a multi-line literal is written as the list
    of its lines. *)
Fixpoint unlines (ls : list string) : string :=
  match ls with
  | [] => EmptyString
  | [l] => l
  | l :: rest => l ++ String newline (unlines rest)
  end.

(** [contains needle hay]: Python's [needle in hay]. *)
Definition contains (needle hay : string) : Prop :=
  exists pre post, hay = pre ++ needle ++ post.

(** ** Exceptions *)

(** The exceptions the modelled code can raise. *)
Inductive exn : Type :=
| ValueError
| TypeError.

(** ** Integers and text *)

(** The decimal numeral of an integer: ["0"], ["8080"], ["-5"]. *)
Definition decimal (n : Z) : string := NilZero.string_of_int (Z.to_int n).

(** Number of decimal digits of [n], the sign left out. *)
Definition int_digits (n : Z) : Z :=
  Z.of_nat (String.length (decimal (Z.abs n))).

(** CPython (3.11 and later) refuses to convert between [int] and [str] when
    the numeral has more digits than [sys.get_int_max_str_digits()]; the
    source leaves the limit at its default. *)
Definition int_max_str_digits : Z := 4300.

(** [str(n)] for an [int], which is also what [f"{n}"] and ["%s" % n]
    produce. *)
Definition str (n : Z) : exn + string :=
  if int_digits n <=? int_max_str_digits then inr (decimal n)
  else inl ValueError.

(** [int(s)] for a [str], base 10: white space is stripped at both ends, a
    sign may lead, and the digits may be grouped by single underscores.
    The characters are those of ASCII; CPython also takes the decimal
    digits and the white space of other scripts, which this model reads as
    invalid. *)
Definition is_digit (c : ascii) : bool :=
  let n := N_of_ascii c in ((48 <=? n) && (n <=? 57))%N.

Definition is_space (c : ascii) : bool :=
  let n := N_of_ascii c in (((9 <=? n) && (n <=? 13)) || (n =? 32))%N.

Fixpoint lstrip (l : list ascii) : list ascii :=
  match l with
  | c :: r => if is_space c then lstrip r else l
  | [] => []
  end.

Definition strip (l : list ascii) : list ascii :=
  List.rev (lstrip (List.rev (lstrip l))).

(** The sign of a literal and what follows it. *)
Definition take_sign (l : list ascii) : Z * list ascii :=
  match l with
  | "+"%char :: r => (1, r)
  | "-"%char :: r => (-1, r)
  | _ => (1, l)
  end.

(** The digits of [digit (["_"] digit)*], or [None] when the text is not of
    that form; [after_digit] tells whether the previous character was a
    digit. *)
Fixpoint digit_run (l : list ascii) (after_digit : bool) : option (list ascii) :=
  match l with
  | [] => if after_digit then Some [] else None
  | c :: r =>
      if is_digit c then option_map (cons c) (digit_run r true)
      else if (Ascii.eqb c "_" && after_digit)%bool then digit_run r false
      else None
  end.

(** The number a run of digits denotes, the leftmost digit first. *)
Fixpoint uint_of_digits (l : list ascii) : uint :=
  match l with
  | [] => Nil
  | c :: r =>
      let d := uint_of_digits r in
      match (N_of_ascii c - 48)%N with
      | 0%N => D0 d | 1%N => D1 d | 2%N => D2 d | 3%N => D3 d | 4%N => D4 d
      | 5%N => D5 d | 6%N => D6 d | 7%N => D7 d | 8%N => D8 d | _ => D9 d
      end
  end.

Definition int (s : string) : exn + Z :=
  let (sign, rest) := take_sign (strip (list_ascii_of_string s)) in
  match digit_run rest false with
  | None => inl ValueError
  | Some ds =>
      if Z.of_nat (length ds) <=? int_max_str_digits
      then inr (sign * Z.of_uint (uint_of_digits ds))
      else inl ValueError
  end.

(** An argument of the [%] operator. *)
Inductive arg : Type :=
| AStr (s : string)
| AInt (n : Z).

Definition str_arg (a : arg) : exn + string :=
  match a with
  | AStr s => inr s
  | AInt n => str n
  end.

(** [fmt % args] for a format whose only directive is [%s]: each [%s] takes
    the next argument; too few or too many arguments raise [TypeError]. *)
Fixpoint percent_format (fmt : string) (args : list arg) : exn + string :=
  match fmt with
  | EmptyString =>
      match args with
      | [] => inr EmptyString
      | _ :: _ => inl TypeError
      end
  | String "%" (String "s" rest) =>
      match args with
      | [] => inl TypeError
      | a :: args' =>
          match str_arg a with
          | inl e => inl e
          | inr text =>
              match percent_format rest args' with
              | inl e => inl e
              | inr out => inr (text ++ out)
              end
          end
      end
  | String c rest =>
      match percent_format rest args with
      | inl e => inl e
      | inr out => inr (String c out)
      end
  end.

(** ** Date and time *)

(** The fields of a [datetime] that the page shows. *)
Record datetime : Type := mk_datetime
  { year : Z; month : Z; day : Z; hour : Z; minute : Z; second : Z }.

(** A number below 100 on two digits, as [%m], [%d], [%H], [%M] and [%S]
    print it. *)
Definition two_digits (n : Z) : string :=
  if n <? 10 then String "0" (decimal n) else decimal n.

(** [dt.strftime(fmt)] for the directives the source uses; [%Y] is the year
    as the C library prints it, with no padding. *)
Fixpoint strftime (fmt : string) (dt : datetime) : string :=
  match fmt with
  | EmptyString => EmptyString
  | String "%" (String d rest) =>
      let field :=
        match d with
        | "Y"%char => decimal (year dt)
        | "m"%char => two_digits (month dt)
        | "d"%char => two_digits (day dt)
        | "H"%char => two_digits (hour dt)
        | "M"%char => two_digits (minute dt)
        | "S"%char => two_digits (second dt)
        | _ => String "%" (String d EmptyString)
        end in
      field ++ strftime rest dt
  | String c rest => String c (strftime rest dt)
  end.

(** ** The template text *)

(** The literal text of the f-string in front of [{server_time}] (source lines 76-179), one entry per source line. *)
Definition page_head : list string :=
  [ "<!DOCTYPE html>"
  ; "<html lang=" ++ q "en" ++ ">"
  ; "<head>"
  ; "  <meta charset=" ++ q "utf-8" ++ ">"
  ; "  <meta name=" ++ q "viewport" ++ " content=" ++ q "width=device-width, initial-scale=1" ++ ">"
  ; "  <title>AKS PoC</title>"
  ; "  <style>"
  ; "    *,*::before,*::after{box-sizing:border-box;margin:0;padding:0}"
  ; EmptyString
  ; "    body{"
  ; "      min-height:100vh;"
  ; "      display:flex;"
  ; "      align-items:center;"
  ; "      justify-content:center;"
  ; "      font-family:-apple-system,BlinkMacSystemFont," ++ q "Segoe UI" ++ ",Roboto,"
  ; "                   " ++ q "Helvetica Neue" ++ ",Arial,sans-serif;"
  ; "      background:linear-gradient(135deg,#0f0c29,#302b63,#24243e);"
  ; "      color:#e2e8f0;"
  ; "      padding:1rem;"
  ; "    }"
  ; EmptyString
  ; "    .card{"
  ; "      background:rgba(255,255,255,.06);"
  ; "      backdrop-filter:blur(12px);"
  ; "      border:1px solid rgba(255,255,255,.10);"
  ; "      border-radius:1.25rem;"
  ; "      padding:3rem 3.5rem;"
  ; "      max-width:480px;"
  ; "      width:100%;"
  ; "      text-align:center;"
  ; "      box-shadow:0 8px 32px rgba(0,0,0,.35);"
  ; "    }"
  ; EmptyString
  ; "    .badge{"
  ; "      display:inline-block;"
  ; "      font-size:.7rem;"
  ; "      font-weight:600;"
  ; "      letter-spacing:.08em;"
  ; "      text-transform:uppercase;"
  ; "      background:rgba(99,102,241,.25);"
  ; "      color:#a5b4fc;"
  ; "      padding:.3rem .85rem;"
  ; "      border-radius:999px;"
  ; "      margin-bottom:1.5rem;"
  ; "    }"
  ; EmptyString
  ; "    h1{"
  ; "      font-size:2.4rem;"
  ; "      font-weight:700;"
  ; "      background:linear-gradient(90deg,#818cf8,#c084fc);"
  ; "      -webkit-background-clip:text;"
  ; "      -webkit-text-fill-color:transparent;"
  ; "      margin-bottom:.5rem;"
  ; "    }"
  ; EmptyString
  ; "    .subtitle{"
  ; "      font-size:1rem;"
  ; "      color:#94a3b8;"
  ; "      margin-bottom:2.5rem;"
  ; "    }"
  ; EmptyString
  ; "    .meta{"
  ; "      display:flex;"
  ; "      flex-direction:column;"
  ; "      gap:.75rem;"
  ; "    }"
  ; EmptyString
  ; "    .meta-row{"
  ; "      display:flex;"
  ; "      justify-content:space-between;"
  ; "      align-items:center;"
  ; "      background:rgba(255,255,255,.04);"
  ; "      padding:.65rem 1rem;"
  ; "      border-radius:.6rem;"
  ; "      font-size:.875rem;"
  ; "    }"
  ; EmptyString
  ; "    .meta-label{"
  ; "      color:#64748b;"
  ; "      font-weight:500;"
  ; "    }"
  ; EmptyString
  ; "    .meta-value{"
  ; "      color:#cbd5e1;"
  ; "      font-family:" ++ q "SF Mono" ++ ",SFMono-Regular,Menlo,Consolas,monospace;"
  ; "      font-size:.82rem;"
  ; "    }"
  ; EmptyString
  ; "    .footer{"
  ; "      margin-top:2rem;"
  ; "      font-size:.7rem;"
  ; "      color:#475569;"
  ; "    }"
  ; "  </style>"
  ; "</head>"
  ; "<body>"
  ; "  <main class=" ++ q "card" ++ ">"
  ; "    <span class=" ++ q "badge" ++ ">AKS PoC Service</span>"
  ; "    <h1>Hello, World!</h1>"
  ; "    <p class=" ++ q "subtitle" ++ ">FastAPI + Uvicorn on Kubernetes</p>"
  ; "    <div class=" ++ q "meta" ++ ">"
  ; "      <div class=" ++ q "meta-row" ++ ">"
  ; "        <span class=" ++ q "meta-label" ++ ">Server Time</span>"
  ; "        <span class=" ++ q "meta-value" ++ ">"
  ].

(** The literal text between [{server_time}] and [{port}] (source lines 179-183). *)
Definition page_middle : list string :=
  [ "</span>"
  ; "      </div>"
  ; "      <div class=" ++ q "meta-row" ++ ">"
  ; "        <span class=" ++ q "meta-label" ++ ">Port</span>"
  ; "        <span class=" ++ q "meta-value" ++ ">"
  ].

(** The literal text after [{port}] (source lines 183-193). *)
Definition page_tail : list string :=
  [ "</span>"
  ; "      </div>"
  ; "      <div class=" ++ q "meta-row" ++ ">"
  ; "        <span class=" ++ q "meta-label" ++ ">Runtime</span>"
  ; "        <span class=" ++ q "meta-value" ++ ">Python 3.12</span>"
  ; "      </div>"
  ; "    </div>"
  ; "    <p class=" ++ q "footer" ++ ">Running as non-root &middot; Ready for production</p>"
  ; "  </main>"
  ; "</body>"
  ; "</html>"
  ].

(** ** The landing page (source lines 73-193) *)

(** [_render_page] takes [server_time: str] and [port: int] (keyword-only)
    and returns a [str]: the f-string is its three literal parts with the
    two replacement fields between them. [{server_time}] inserts the string
    as it is, [{port}] inserts [str(port)]. *)
Definition _render_page (server_time : string) (port : Z) : exn + string :=
  match str port with
  | inl e => inl e
  | inr port_text =>
      inr (unlines page_head ++ server_time ++ unlines page_middle
             ++ port_text ++ unlines page_tail)
  end.

(** ** JSON text *)

Definition backslash : ascii := "092"%char.

Definition hex_digit (n : N) : ascii :=
  match String.get (N.to_nat n) "0123456789abcdef" with
  | Some c => c
  | None => "0"%char
  end.

(** One character of a JSON string, as [json.dumps(..., ensure_ascii=False)]
    writes it. *)
Definition json_escape (c : ascii) : string :=
  let n := N_of_ascii c in
  if Ascii.eqb c dquote then String backslash (String dquote EmptyString)
  else if Ascii.eqb c backslash then String backslash (String backslash EmptyString)
  else if (n =? 8)%N then String backslash "b"
  else if (n =? 9)%N then String backslash "t"
  else if (n =? 10)%N then String backslash "n"
  else if (n =? 12)%N then String backslash "f"
  else if (n =? 13)%N then String backslash "r"
  else if (n <? 32)%N
  then String backslash ("u00" ++ String (hex_digit (n / 16)) (String (hex_digit (n mod 16)) EmptyString))
  else String c EmptyString.

Definition json_string (s : string) : string :=
  q (String.concat EmptyString (map json_escape (list_ascii_of_string s))).

(** A [dict[str, str]] keeps its items in insertion order. *)
Definition dict : Type := list (string * string).

(** [json.dumps(d, separators=(",", ":"))] *)
Definition json_dumps (d : dict) : string :=
  "{" ++ String.concat "," (map (fun kv => json_string (fst kv) ++ ":" ++ json_string (snd kv)) d) ++ "}".

(** ** The process: environment, state, effects *)

(** [os.environ]: the value of each variable that is set. *)
Definition environment : Type := string -> option string.

(** [os.getenv(key, default)] *)
Definition getenv (environ : environment) (key default : string) : string :=
  match environ key with
  | Some value => value
  | None => default
  end.

(** A record handed to the logging handlers. *)
Record LogRecord : Type := mk_record
  { levelname : string; name : string; message : string }.

(** The line of a record under the format of [logging.basicConfig] (source
    line 19); [asctime] is the formatted creation time. *)
Definition format_record (asctime : string) (r : LogRecord) : string :=
  asctime ++ " " ++ levelname r ++ " " ++ name r ++ " — " ++ message r.

(** What the module holds and what it has written: the global [PORT] and the
    records logged so far, the oldest first. *)
Record State : Type := mk_state
  { PORT : Z; log : list LogRecord }.

(** A computation on the process state that returns a value or raises. The
    state reached when an exception is raised is kept: what was logged
    before stays logged. *)
Definition M (A : Type) : Type := State -> (exn + A) * State.

Definition ret {A : Type} (a : A) : M A := fun st => (inr a, st).

Definition bind {A B : Type} (m : M A) (k : A -> M B) : M B :=
  fun st =>
    match m st with
    | (inl e, st') => (inl e, st')
    | (inr a, st') => k a st'
    end.

Notation "x <- m ;; k" := (bind m (fun x => k))
  (at level 61, m at next level, right associativity).

(** [logger.info(fmt, *args)] on the logger ["app"]: the level INFO is
    enabled (source line 18), and the message is [fmt % args]. When the
    message cannot be formatted the logging handler reports it aside and no
    record is written; the caller sees no exception either way. *)
Definition logger_info (fmt : string) (args : list arg) : M unit :=
  fun st =>
    match percent_format fmt args with
    | inr msg =>
        (inr tt, mk_state (PORT st) (log st ++ [mk_record "INFO" "app" msg]))
    | inl _ => (inr tt, st)
    end.

(** ** Requests and responses *)

Record Request : Type := mk_request
  { method : string; path : string }.

Record Response : Type := mk_response
  { status_code : Z; content_type : string; body : string }.

(** The response classes of the framework, with their default status. *)
Definition HTMLResponse (content : string) : Response :=
  mk_response 200 "text/html; charset=utf-8" content.

Definition JSONResponse (content : dict) : Response :=
  mk_response 200 "application/json" (json_dumps content).

(** ** Configuration (source line 27) *)

(** Importing the module evaluates [int(os.getenv("PORT", "8080"))]; an
    exception there ends the import, and the process with it. *)
Definition read_port (environ : environment) : exn + Z :=
  int (getenv environ "PORT" "8080").

Definition load_module (environ : environment) : exn + State :=
  match read_port environ with
  | inl e => inl e
  | inr port => inr (mk_state port [])
  end.

(** ** Middleware (source lines 38-43) *)

Definition log_requests (request : Request) (call_next : Request -> M Response)
  : M Response :=
  response <- call_next request ;;
  _ <- logger_info "%s %s → %s"
         [AStr (method request); AStr (path request); AInt (status_code response)] ;;
  ret response.

(** ** Routes (source lines 49-59) *)

(** The clock reading [datetime.now(timezone.utc)] is an input of [root]. *)
Definition root (now_utc : datetime) : M string :=
  fun st =>
    (_render_page (strftime "%Y-%m-%d %H:%M:%S UTC" now_utc) (PORT st), st).

Definition healthz : M dict :=
  ret [("status", "ok")].

(** ** Startup (source lines 65-67) *)

Definition _on_startup : M unit :=
  fun st => logger_info "Listening on http://0.0.0.0:%s/" [AInt (PORT st)] st.

(** The process from its start to the moment it serves: the module is
    imported, then the startup handlers run. *)
Definition start (environ : environment) : exn + State :=
  match load_module environ with
  | inl e => inl e
  | inr st => inr (snd (_on_startup st))
  end.

(** ** The application *)

Section Application.

(** What the framework answers when no route takes the request (not found,
    method not allowed, redirection): it is not code of this repository and
    stays a parameter. *)
Variable unrouted : Request -> Response.

(** The router: [@app.get("/", response_class=HTMLResponse)] and
    [@app.get("/healthz")], whose default response class is JSON. *)
Definition route (now_utc : datetime) (request : Request) : M Response :=
  if ((method request =? "GET") && (path request =? "/"))%string then
    content <- root now_utc ;; ret (HTMLResponse content)
  else if ((method request =? "GET") && (path request =? "/healthz"))%string then
    content <- healthz ;; ret (JSONResponse content)
  else ret (unrouted request).

(** Every request goes through the middleware, then to the router. *)
Definition app (now_utc : datetime) (request : Request) : M Response :=
  log_requests request (route now_utc).

(** The states of a process started in [environ]: the state after startup,
    and the state after one more request, whatever the request and the
    time it arrives. *)
Inductive reachable (environ : environment) : State -> Prop :=
| reach_start st :
    start environ = inr st -> reachable environ st
| reach_request st now_utc request :
    reachable environ st ->
    reachable environ (snd (app now_utc request st)).

End Application.

(** * Notions the properties are stated with *)

(** ** Integers that can be printed *)

(** [printable n]: [str(n)] returns. These are the integers below
    [10 ^ 4300] in absolute value (lemma [printable_iff]), among them every
    port of TCP and every value [int] returns (lemmas [tcp_port_printable]
    and [int_printable]). *)
Definition printable (n : Z) : Prop := int_digits n <= int_max_str_digits.

(** ** Clock readings *)

(** What [datetime.now(timezone.utc)] can return on a clock set to a year of
    four digits. *)
Definition clock_reading (dt : datetime) : Prop :=
  1000 <= year dt <= 9999 /\ 1 <= month dt <= 12 /\ 1 <= day dt <= 31 /\
  0 <= hour dt <= 23 /\ 0 <= minute dt <= 59 /\ 0 <= second dt <= 59.

(** ** Text of a fixed shape *)

Inductive char_class : Type :=
| Digit
| Exactly (c : ascii).

Definition in_class (k : char_class) (c : ascii) : bool :=
  match k with
  | Digit => is_digit c
  | Exactly c' => Ascii.eqb c c'
  end.

(** [has_shape p s]: [s] has one character per class of [p], each in its
    class. *)
Fixpoint has_shape (p : list char_class) (s : string) : bool :=
  match p, s with
  | [], EmptyString => true
  | k :: p', String c s' => in_class k c && has_shape p' s'
  | _, _ => false
  end.

(** [YYYY-MM-DD HH:MM:SS UTC] *)
Definition utc_timestamp_shape : list char_class :=
  [ Digit; Digit; Digit; Digit; Exactly "-"; Digit; Digit; Exactly "-";
    Digit; Digit; Exactly " "; Digit; Digit; Exactly ":"; Digit; Digit;
    Exactly ":"; Digit; Digit; Exactly " "; Exactly "U"; Exactly "T";
    Exactly "C" ].

Definition is_utc_timestamp (s : string) : bool :=
  has_shape utc_timestamp_shape s.

(** ** Documents with a single root element *)

(** A document is read as text and tags. A tag runs from ["<"] to the next
    [">"]; its name ends at the first white space. *)
Inductive tag : Type :=
| Declaration
| OpenTag (name : string)
| VoidTag (name : string)
| CloseTag (name : string).

(** The elements of HTML that have no end tag. *)
Definition void_elements : list string :=
  [ "area"; "base"; "br"; "col"; "embed"; "hr"; "img"; "input"; "link";
    "meta"; "source"; "track"; "wbr" ].

Fixpoint tag_name (l : list ascii) : string :=
  match l with
  | [] => EmptyString
  | c :: r => if is_space c then EmptyString else String c (tag_name r)
  end.

Definition read_tag (inside : list ascii) : tag :=
  match inside with
  | "!"%char :: _ => Declaration
  | "/"%char :: r => CloseTag (tag_name r)
  | _ =>
      let n := tag_name inside in
      if existsb (String.eqb n) void_elements then VoidTag n else OpenTag n
  end.

(** The reader's state: the elements that are open, the innermost first; the
    elements met at the top level, the latest first; and, inside a tag, its
    characters so far, the latest first. *)
Record reader : Type := mk_reader
  { open_elements : list string;
    top_level : list string;
    in_tag : option (list ascii) }.

Definition reader_start : reader := mk_reader [] [] None.

Definition at_top (names : list string) (n : string) (top : list string)
  : list string :=
  match names with
  | [] => n :: top
  | _ :: _ => top
  end.

(** A tag is taken, or the document is refused ([None]): an end tag must
    close the innermost open element. *)
Definition take_tag (t : tag) (names top : list string) : option reader :=
  match t with
  | Declaration => Some (mk_reader names top None)
  | OpenTag n => Some (mk_reader (n :: names) (at_top names n top) None)
  | VoidTag n => Some (mk_reader names (at_top names n top) None)
  | CloseTag n =>
      match names with
      | m :: names' =>
          if (m =? n)%string then Some (mk_reader names' top None) else None
      | [] => None
      end
  end.

(** One character. Outside the elements only white space may stand between
    the tags. *)
Definition read_char (r : reader) (c : ascii) : option reader :=
  match in_tag r with
  | None =>
      if Ascii.eqb c "<" then Some (mk_reader (open_elements r) (top_level r) (Some []))
      else
        match open_elements r with
        | [] => if is_space c then Some r else None
        | _ :: _ => Some r
        end
  | Some inside =>
      if Ascii.eqb c ">" then
        take_tag (read_tag (List.rev inside)) (open_elements r) (top_level r)
      else if Ascii.eqb c "<" then None
      else Some (mk_reader (open_elements r) (top_level r) (Some (c :: inside)))
  end.

Fixpoint read_text (s : string) (r : reader) : option reader :=
  match s with
  | EmptyString => Some r
  | String c s' =>
      match read_char r c with
      | Some r' => read_text s' r'
      | None => None
      end
  end.

(** Well-formed with a single root [<html>] element: every element is closed
    in order, no tag is left open, and [html] is the one element at the top
    level. *)
Definition single_root_html (doc : string) : bool :=
  match read_text doc reader_start with
  | Some (mk_reader [] ["html"] None) => true
  | _ => false
  end.

(** ** Text free of markup *)

Fixpoint all_chars (f : ascii -> bool) (s : string) : bool :=
  match s with
  | EmptyString => true
  | String c s' => f c && all_chars f s'
  end.

(** No character of [s] opens a tag. *)
Definition plain_text (s : string) : bool :=
  all_chars (fun c => negb (Ascii.eqb c "<")) s.

(** ** Checking a property on a range of integers *)

(** [f] holds at [lo], [lo + 1], ..., [lo + n - 1]. *)
Fixpoint holds_from (f : Z -> bool) (lo : Z) (n : nat) : bool :=
  match n with
  | O => true
  | S n' => f lo && holds_from f (lo + 1) n'
  end.

(** ** Environments to run the model in *)

Definition environ_unset : environment := fun _ => None.

Definition environ_port (value : string) : environment :=
  fun key => if (key =? "PORT")%string then Some value else None.

(** A handler that answers every request with the same response. *)
Definition answer (response : Response) : Request -> M Response :=
  fun _ => ret response.

(** A numeral of a positive integer: digits, not all of them zero. *)
Definition positive_numeral (s : string) : bool :=
  all_chars is_digit s && negb (all_chars (Ascii.eqb "0") s).

(** ** White space *)

(** A text of white space only, as [int] strips it. *)
Definition blank (s : string) : bool := all_chars is_space s.

(** ** The rows of the page *)

(** A row of the page as the template writes it (source lines 178-179 and
    182-183): the label in its span, a line break, and the value in its span
    at the same depth. [row_open] is the row up to its value. *)
Definition row_open (label : string) : string :=
  "<span class=" ++ q "meta-label" ++ ">" ++ label ++ "</span>"
    ++ String newline ("        <span class=" ++ q "meta-value" ++ ">").

Definition meta_row (label value : string) : string :=
  row_open label ++ value ++ "</span>".

(** The first [n] characters of [s], and what is left after them. *)
Fixpoint take (n : nat) (s : string) : string :=
  match n, s with
  | O, _ => EmptyString
  | S n', String c s' => String c (take n' s')
  | S _, EmptyString => EmptyString
  end.

Fixpoint drop (n : nat) (s : string) : string :=
  match n, s with
  | O, _ => s
  | S n', String _ s' => drop n' s'
  | S _, EmptyString => EmptyString
  end.

(** The template around its two rows: what stands above the row of the time,
    between the two rows, and below the row of the port. *)
Definition frame_top : string :=
  take (String.length (unlines page_head) - String.length (row_open "Server Time"))
    (unlines page_head).

Definition frame_between : string :=
  take (String.length (unlines page_middle) - String.length "</span>"
          - String.length (row_open "Port"))
    (drop (String.length "</span>") (unlines page_middle)).

Definition frame_bottom : string :=
  drop (String.length "</span>") (unlines page_tail).

(** ** Requests served in turn *)

(** The record the middleware writes for a request and its response. *)
Definition request_record (request : Request) (response : Response) : LogRecord :=
  mk_record "INFO" "app"
    (method request ++ " " ++ path request ++ " → " ++ decimal (status_code response)).

(** The record the startup hook writes. *)
Definition startup_record (port : Z) : LogRecord :=
  mk_record "INFO" "app" ("Listening on http://0.0.0.0:" ++ decimal port ++ "/").

(** Requests handled one after the other, each with the clock reading at its
    arrival: what each one got, and the state at the end. *)
Fixpoint serve (unrouted : Request -> Response)
         (arrivals : list (datetime * Request)) (st : State)
  : list (exn + Response) * State :=
  match arrivals with
  | [] => ([], st)
  | (now_utc, request) :: rest =>
      let (outcome, st') := app unrouted now_utc request st in
      let (outcomes, st'') := serve unrouted rest st' in
      (outcome :: outcomes, st'')
  end.

(** * Properties *)

(** ** Strings *)

Lemma append_assoc (a b c : string) : (a ++ b) ++ c = a ++ b ++ c.
Proof.
  induction a as [|x a IH]; simpl; [reflexivity|].
  now rewrite IH.
Qed.

Lemma append_nil_r (a : string) : a ++ EmptyString = a.
Proof.
  induction a as [|x a IH]; simpl; [reflexivity|].
  now rewrite IH.
Qed.

Lemma contains_refl (s : string) : contains s s.
Proof.
  exists EmptyString, EmptyString. simpl. now rewrite append_nil_r.
Qed.

Lemma contains_middle (pre s post : string) : contains s (pre ++ s ++ post).
Proof. now exists pre, post. Qed.

Lemma contains_app_l (s a b : string) : contains s b -> contains s (a ++ b).
Proof.
  intros (pre & post & ->). exists (a ++ pre), post.
  now rewrite append_assoc.
Qed.

Lemma contains_app_r (s a b : string) : contains s a -> contains s (a ++ b).
Proof.
  intros (pre & post & ->). exists pre, (post ++ b).
  now rewrite !append_assoc.
Qed.

Lemma contains_cons (s : string) (c : ascii) (b : string) :
  contains s b -> contains s (String c b).
Proof.
  intros (pre & post & ->). now exists (String c pre), post.
Qed.

(** Finds a part of a concatenation. *)
Ltac find_part :=
  solve [ apply contains_refl
        | apply contains_app_r, contains_refl
        | apply contains_middle
        | apply contains_app_l; find_part
        | apply contains_cons; find_part ].

Lemma all_chars_app (f : ascii -> bool) (a b : string) :
  all_chars f (a ++ b) = all_chars f a && all_chars f b.
Proof.
  induction a as [|x a IH]; simpl; [reflexivity|].
  now rewrite IH, andb_assoc.
Qed.

Lemma all_chars_impl (f g : ascii -> bool) (s : string) :
  (forall c, f c = true -> g c = true) ->
  all_chars f s = true -> all_chars g s = true.
Proof.
  intros Hfg. induction s as [|x s IH]; simpl; [reflexivity|].
  intros [Hx Hs]%andb_prop. now rewrite (Hfg _ Hx), IH.
Qed.

(** ** Decimal numerals *)

Lemma string_of_uint_digits (d : uint) :
  all_chars is_digit (NilEmpty.string_of_uint d) = true.
Proof. induction d; simpl; auto. Qed.

Lemma string_of_uint_length (d : uint) :
  String.length (NilEmpty.string_of_uint d) = nb_digits d.
Proof. induction d; simpl; auto. Qed.

Lemma nilzero_nonnil (d : uint) :
  d <> Nil -> NilZero.string_of_uint d = NilEmpty.string_of_uint d.
Proof. destruct d; simpl; congruence. Qed.

Lemma nilzero_digits (d : uint) :
  all_chars is_digit (NilZero.string_of_uint d) = true.
Proof.
  destruct d; try apply (string_of_uint_digits (_ _)). reflexivity.
Qed.

(** A numeral is a run of digits, after ["-"] for a negative number. *)
Lemma decimal_chars (n : Z) :
  all_chars (fun c => is_digit c || Ascii.eqb c "-") (decimal n) = true.
Proof.
  unfold decimal. destruct (Z.to_int n) as [d|d]; simpl.
  - apply all_chars_impl with (f := is_digit); [|apply nilzero_digits].
    intros c ->. reflexivity.
  - apply all_chars_impl with (f := is_digit); [|apply nilzero_digits].
    intros c ->. reflexivity.
Qed.

Lemma digit_or_minus_plain (c : ascii) :
  is_digit c || Ascii.eqb c "-" = true -> negb (Ascii.eqb c "<") = true.
Proof.
  destruct (Ascii.eqb_spec c "<") as [->|]; [vm_compute; discriminate|reflexivity].
Qed.

Lemma decimal_plain (n : Z) : plain_text (decimal n) = true.
Proof.
  apply all_chars_impl with (2 := decimal_chars n), digit_or_minus_plain.
Qed.

Lemma str_printable (n : Z) : printable n -> str n = inr (decimal n).
Proof.
  unfold printable, str. intros H.
  now destruct (Z.leb_spec (int_digits n) int_max_str_digits); [|lia].
Qed.

(** ** What [int] returns *)

Lemma digit_run_nonempty (l ds : list ascii) :
  digit_run l false = Some ds -> ds <> [].
Proof.
  destruct l as [|c l]; simpl; [discriminate|].
  destruct (is_digit c).
  - destruct (digit_run l true); [|discriminate]. intros [= <-]. discriminate.
  - rewrite andb_false_r. discriminate.
Qed.

Lemma uint_of_digits_length (ds : list ascii) :
  nb_digits (uint_of_digits ds) = length ds.
Proof.
  induction ds as [|c ds IH]; simpl; [reflexivity|].
  destruct (N_of_ascii c - 48)%N as [|p]; simpl; [now rewrite IH|].
  do 4 (destruct p as [p|p|]; simpl; try now rewrite IH).
Qed.

Lemma uint_of_digits_nonnil (ds : list ascii) :
  ds <> [] -> uint_of_digits ds <> Nil.
Proof.
  intros Hds E. apply (f_equal nb_digits) in E.
  rewrite uint_of_digits_length in E. destruct ds; [congruence|discriminate].
Qed.

Lemma of_uint_nonneg (d : uint) : 0 <= Z.of_uint d.
Proof. unfold Z.of_uint. lia. Qed.

(** The numeral of the number a run of digits denotes is no longer than the
    run. *)
Lemma int_digits_of_uint (d : uint) :
  d <> Nil -> int_digits (Z.of_uint d) <= Z.of_nat (nb_digits d).
Proof.
  intros Hd. unfold int_digits, decimal.
  rewrite Z.abs_eq by apply of_uint_nonneg.
  change (Z.of_uint d) with (Z.of_int (Pos d)).
  rewrite DecimalZ.to_of. simpl.
  rewrite nilzero_nonnil by apply unorm_nonnil.
  rewrite string_of_uint_length.
  apply inj_le, nb_digits_unorm, Hd.
Qed.

Lemma int_digits_opp (n : Z) : int_digits (- n) = int_digits n.
Proof. unfold int_digits. now rewrite Z.abs_opp. Qed.

Lemma int_printable (s : string) (n : Z) : int s = inr n -> printable n.
Proof.
  unfold int, printable.
  destruct (take_sign _) as [sign rest] eqn:Hsign.
  destruct (digit_run rest false) as [ds|] eqn:Hrun; [|discriminate].
  destruct (Z.leb_spec (Z.of_nat (length ds)) int_max_str_digits) as [Hlen|];
    [|discriminate].
  intros [= <-].
  assert (Hd : uint_of_digits ds <> Nil)
    by (apply uint_of_digits_nonnil; eapply digit_run_nonempty; eauto).
  pose proof (int_digits_of_uint _ Hd) as Hb.
  rewrite uint_of_digits_length in Hb.
  assert (Hs : sign = 1 \/ sign = -1).
  { unfold take_sign in Hsign.
    destruct (strip _) as [|c r]; [injection Hsign; auto|].
    destruct c as [[] [] [] [] [] [] [] []]; injection Hsign; auto. }
  destruct Hs as [-> | ->].
  - rewrite Z.mul_1_l. lia.
  - replace (-1 * Z.of_uint (uint_of_digits ds)) with (- Z.of_uint (uint_of_digits ds)) by lia.
    rewrite int_digits_opp. lia.
Qed.

(** ** Ranges of integers *)

Lemma holds_from_spec (f : Z -> bool) (n : nat) :
  forall lo z, holds_from f lo n = true ->
               lo <= z < lo + Z.of_nat n -> f z = true.
Proof.
  induction n as [|n IH]; intros lo z; simpl holds_from.
  - lia.
  - intros [Hlo Hrest]%andb_prop Hz.
    destruct (Z.eq_dec z lo) as [->|Hne]; [exact Hlo|].
    apply (IH (lo + 1)); [exact Hrest | lia].
Qed.

(** ** The size of a numeral *)

Section DigitCount.

Local Open Scope N_scope.

Lemma of_uint_acc_value (d : uint) :
  forall acc,
    N.pos (Pos.of_uint_acc d acc) =
    N.pos acc * 10 ^ N.of_nat (nb_digits d) + Pos.of_uint d.
Proof.
  induction d as [|d IH|d IH|d IH|d IH|d IH|d IH|d IH|d IH|d IH|d IH]; intros acc;
    cbn [Pos.of_uint_acc Pos.of_uint nb_digits];
    rewrite ?Nnat.Nat2N.inj_succ, ?N.pow_succ_r', ?IH;
    try (rewrite (IH 1%positive)); try lia.
Qed.

Lemma of_uint_below (d : uint) : Pos.of_uint d < 10 ^ N.of_nat (nb_digits d).
Proof.
  induction d as [|d IH|d IH|d IH|d IH|d IH|d IH|d IH|d IH|d IH|d IH];
    cbn [Pos.of_uint nb_digits];
    rewrite ?Nnat.Nat2N.inj_succ, ?N.pow_succ_r', ?of_uint_acc_value; try lia.
Qed.

Lemma of_uint_above (d : uint) :
  d <> Nil -> nzhead d = d ->
  10 ^ N.of_nat (Nat.pred (nb_digits d)) <= Pos.of_uint d.
Proof.
  destruct d; cbn [Pos.of_uint nb_digits Nat.pred nzhead]; try congruence;
    intros _ H; rewrite ?of_uint_acc_value; try lia.
  exfalso. apply (nzhead_nonzero _ _ H).
Qed.

(** The numeral of a positive number has no leading zero. *)
Lemma to_uint_normal (p : positive) : nzhead (Pos.to_uint p) = Pos.to_uint p.
Proof.
  pose proof (DecimalPos.Unsigned.to_of (Pos.to_uint p)) as H.
  rewrite DecimalPos.Unsigned.of_to in H. simpl in H.
  unfold unorm in H. destruct (nzhead (Pos.to_uint p)) eqn:E; try (now symmetry).
  exfalso. exact (DecimalPos.Unsigned.to_uint_nonzero p H).
Qed.

Lemma to_uint_digits (p : positive) (k : nat) :
  (nb_digits (Pos.to_uint p) <= k)%nat <-> N.pos p < 10 ^ N.of_nat k.
Proof.
  pose proof (of_uint_below (Pos.to_uint p)) as Hup.
  pose proof (of_uint_above (Pos.to_uint p) (DecimalPos.Unsigned.to_uint_nonnil p)
                (to_uint_normal p)) as Hlow.
  rewrite DecimalPos.Unsigned.of_to in Hup, Hlow.
  split; intros H.
  - eapply N.lt_le_trans; [exact Hup|]. apply N.pow_le_mono_r; lia.
  - destruct (Nat.le_gt_cases (nb_digits (Pos.to_uint p)) k) as [|Hgt]; [assumption|].
    exfalso.
    assert (10 ^ N.of_nat k <= 10 ^ N.of_nat (Nat.pred (nb_digits (Pos.to_uint p))))
      by (apply N.pow_le_mono_r; lia).
    lia.
Qed.

End DigitCount.

(** A number has at most [k] digits when it is below [10 ^ k]. *)
Lemma int_digits_bound (n k : Z) :
  0 < k -> int_digits n <= k <-> Z.abs n < 10 ^ k.
Proof.
  intros Hk. unfold int_digits, decimal.
  destruct (Z.abs n) as [|p|p] eqn:E; [| |lia].
  - simpl. split; intros _; [apply Z.pow_pos_nonneg|]; lia.
  - cbn [Z.to_int NilZero.string_of_int].
    rewrite nilzero_nonnil by apply DecimalPos.Unsigned.to_uint_nonnil.
    rewrite string_of_uint_length.
    pose proof (to_uint_digits p (Z.to_nat k)) as H.
    assert (Hpow : Z.of_N (10 ^ N.of_nat (Z.to_nat k)) = 10 ^ k).
    { rewrite N2Z.inj_pow, nat_N_Z, Z2Nat.id by lia. reflexivity. }
    split; intros Hd.
    + assert (Hnat : (nb_digits (Pos.to_uint p) <= Z.to_nat k)%nat) by lia.
      apply H, N2Z.inj_lt in Hnat. rewrite Hpow in Hnat. exact Hnat.
    + assert (HN : (N.pos p < 10 ^ N.of_nat (Z.to_nat k))%N).
      { apply N2Z.inj_lt. rewrite Hpow. exact Hd. }
      apply H in HN. lia.
Qed.

(** [str] prints the integers of fewer than 4301 digits. *)
Lemma printable_iff (n : Z) : printable n <-> Z.abs n < 10 ^ int_max_str_digits.
Proof. apply int_digits_bound. reflexivity. Qed.

Lemma tcp_port_printable (n : Z) : 0 <= n <= 65535 -> printable n.
Proof.
  intros Hn. apply printable_iff.
  apply Z.lt_le_trans with (10 ^ 5); [lia|].
  apply Z.pow_le_mono_r; [lia|]. unfold int_max_str_digits. lia.
Qed.

(** ** Shapes of text *)

Lemma has_shape_app (p1 p2 : list char_class) (s1 s2 : string) :
  has_shape p1 s1 = true -> has_shape p2 s2 = true ->
  has_shape (p1 ++ p2) (s1 ++ s2) = true.
Proof.
  revert s1. induction p1 as [|k p1 IH]; intros [|c s1]; simpl; try discriminate.
  - auto.
  - intros [Hc Hs]%andb_prop H2. now rewrite Hc, IH.
Qed.

Lemma has_shape_cons (c : ascii) (p : list char_class) (s : string) :
  has_shape p s = true -> has_shape (Exactly c :: p) (String c s) = true.
Proof. simpl. intros ->. now rewrite Ascii.eqb_refl. Qed.

(** A text of a shape that has no place for ["<"] is plain. *)
Lemma has_shape_plain (p : list char_class) (s : string) :
  Forall (fun k => in_class k "<" = false) p ->
  has_shape p s = true -> plain_text s = true.
Proof.
  intros Hp. revert s.
  induction Hp as [|k p Hk _ IH]; intros [|c s]; simpl; try discriminate; auto.
  intros [Hc Hs]%andb_prop. unfold plain_text in *. simpl.
  rewrite (IH _ Hs), andb_true_r.
  destruct (Ascii.eqb_spec c "<") as [->|]; [congruence|reflexivity].
Qed.

Lemma utc_timestamp_plain (s : string) :
  is_utc_timestamp s = true -> plain_text s = true.
Proof.
  apply has_shape_plain. unfold utc_timestamp_shape.
  repeat constructor.
Qed.

Lemma year_shape (y : Z) :
  1000 <= y <= 9999 -> has_shape [Digit; Digit; Digit; Digit] (decimal y) = true.
Proof.
  intros Hy.
  apply (holds_from_spec (fun z => has_shape [Digit; Digit; Digit; Digit] (decimal z))
           (Z.to_nat 9000) 1000).
  - vm_compute. reflexivity.
  - lia.
Qed.

Lemma two_digits_shape (n : Z) :
  0 <= n <= 99 -> has_shape [Digit; Digit] (two_digits n) = true.
Proof.
  intros Hn.
  apply (holds_from_spec (fun z => has_shape [Digit; Digit] (two_digits z))
           (Z.to_nat 100) 0).
  - vm_compute. reflexivity.
  - lia.
Qed.

(** The format of [root] prints a clock reading as [YYYY-MM-DD HH:MM:SS UTC]. *)
Lemma strftime_shape (dt : datetime) :
  clock_reading dt ->
  is_utc_timestamp (strftime "%Y-%m-%d %H:%M:%S UTC" dt) = true.
Proof.
  intros (Hy & Hm & Hd & HH & HM & HS).
  unfold is_utc_timestamp, utc_timestamp_shape. cbn [strftime].
  apply (has_shape_app [Digit; Digit; Digit; Digit]); [apply year_shape, Hy|].
  apply has_shape_cons.
  apply (has_shape_app [Digit; Digit]); [apply two_digits_shape; lia|].
  apply has_shape_cons.
  apply (has_shape_app [Digit; Digit]); [apply two_digits_shape; lia|].
  apply has_shape_cons.
  apply (has_shape_app [Digit; Digit]); [apply two_digits_shape; lia|].
  apply has_shape_cons.
  apply (has_shape_app [Digit; Digit]); [apply two_digits_shape; lia|].
  apply has_shape_cons.
  apply (has_shape_app [Digit; Digit] [Exactly " "; Exactly "U"; Exactly "T"; Exactly "C"]);
    [apply two_digits_shape; lia|].
  reflexivity.
Qed.

(** ** Reading a document *)

Lemma read_text_app (a b : string) (r : reader) :
  read_text (a ++ b) r =
  match read_text a r with
  | Some r' => read_text b r'
  | None => None
  end.
Proof.
  revert r. induction a as [|c a IH]; intros r; simpl; [reflexivity|].
  destruct (read_char r c); [apply IH | reflexivity].
Qed.

(** Inside an element, plain text leaves the reader as it is. *)
Lemma read_plain_text (s : string) (n : string) (names top : list string) :
  plain_text s = true ->
  read_text s (mk_reader (n :: names) top None) = Some (mk_reader (n :: names) top None).
Proof.
  unfold plain_text. induction s as [|c s IH]; simpl; [reflexivity|].
  intros [Hc Hs]%andb_prop. unfold read_char. simpl.
  apply negb_true_iff in Hc. rewrite Hc. now apply IH.
Qed.

(** The three parts of the template, read in turn. *)
Lemma read_page_head :
  read_text (unlines page_head) reader_start =
  Some (mk_reader ["span"; "div"; "div"; "main"; "body"; "html"] ["html"] None).
Proof. vm_compute. reflexivity. Qed.

Lemma read_page_middle :
  read_text (unlines page_middle)
    (mk_reader ["span"; "div"; "div"; "main"; "body"; "html"] ["html"] None) =
  Some (mk_reader ["span"; "div"; "div"; "main"; "body"; "html"] ["html"] None).
Proof. vm_compute. reflexivity. Qed.

Lemma read_page_tail :
  read_text (unlines page_tail)
    (mk_reader ["span"; "div"; "div"; "main"; "body"; "html"] ["html"] None) =
  Some (mk_reader [] ["html"] None).
Proof. vm_compute. reflexivity. Qed.

(** ** The landing page *)

Lemma render_page_printable (server_time : string) (port : Z) :
  printable port ->
  _render_page server_time port =
  inr (unlines page_head ++ server_time ++ unlines page_middle
         ++ decimal port ++ unlines page_tail).
Proof. intros H. unfold _render_page. now rewrite (str_printable _ H). Qed.

Lemma page_single_root (server_time : string) (port : Z) :
  plain_text server_time = true ->
  single_root_html
    (unlines page_head ++ server_time ++ unlines page_middle
       ++ decimal port ++ unlines page_tail) = true.
Proof.
  intros Hplain. unfold single_root_html.
  rewrite read_text_app, read_page_head.
  rewrite read_text_app, (read_plain_text _ _ _ _ Hplain).
  rewrite read_text_app, read_page_middle.
  rewrite read_text_app, (read_plain_text _ _ _ _ (decimal_plain port)).
  now rewrite read_page_tail.
Qed.

(** Markup in [server_time] reaches the document and can close the root
    element early. *)
Example page_with_markup_in_time :
  exists html,
    _render_page "</html>" 8080 = inr html /\ single_root_html html = false.
Proof. eexists. split; [reflexivity | vm_compute; reflexivity]. Qed.

(** C1. For every UTC timestamp string [T] and every port number [P] (an
    integer [str] can print), [_render_page] returns a document that contains
    [T] and [str(P)] and that is well formed with [<html>] as its single root
    element. *)
Theorem render_page_contains_inputs_single_root (T : string) (P : Z) :
  is_utc_timestamp T = true ->
  printable P ->
  exists html port_text,
    _render_page T P = inr html /\
    str P = inr port_text /\
    contains T html /\
    contains port_text html /\
    single_root_html html = true.
Proof.
  intros HT HP.
  exists (unlines page_head ++ T ++ unlines page_middle
            ++ decimal P ++ unlines page_tail), (decimal P).
  split; [apply render_page_printable, HP|].
  split; [apply str_printable, HP|].
  split; [find_part|].
  split; [find_part|].
  apply page_single_root, utc_timestamp_plain, HT.
Qed.

Lemma render_page_contains_inputs_single_root_witness :
  exists html port_text,
    _render_page "2024-01-02 03:04:05 UTC" 8080 = inr html /\
    str 8080 = inr port_text /\
    contains "2024-01-02 03:04:05 UTC" html /\
    contains port_text html /\
    single_root_html html = true.
Proof.
  apply (render_page_contains_inputs_single_root "2024-01-02 03:04:05 UTC" 8080).
  - reflexivity.
  - unfold printable. vm_compute. discriminate.
Defined.

(** C10. [_render_page] embeds [server_time] as it is: the document is a
    frame that depends on the port alone, put around the string itself, so
    every string, markup included, occurs in it unescaped. *)
Theorem render_page_embeds_time_verbatim (P : Z) :
  printable P ->
  exists before after,
    forall s, _render_page s P = inr (before ++ s ++ after) /\
              contains s (before ++ s ++ after).
Proof.
  intros HP.
  exists (unlines page_head), (unlines page_middle ++ decimal P ++ unlines page_tail).
  intros s. split; [apply render_page_printable, HP | apply contains_middle].
Qed.

Lemma render_page_embeds_time_verbatim_witness :
  exists before after,
    forall s, _render_page s 8080 = inr (before ++ s ++ after) /\
              contains s (before ++ s ++ after).
Proof.
  apply (render_page_embeds_time_verbatim 8080).
  unfold printable. vm_compute. discriminate.
Defined.



(** ** Logging *)

Lemma logger_info_returns (fmt : string) (args : list arg) (st : State) :
  fst (logger_info fmt args st) = inr tt.
Proof. unfold logger_info. now destruct (percent_format fmt args). Qed.

Lemma logger_info_port (fmt : string) (args : list arg) (st : State) :
  PORT (snd (logger_info fmt args st)) = PORT st.
Proof. unfold logger_info. now destruct (percent_format fmt args). Qed.

Lemma request_line (m p : string) (code : Z) :
  printable code ->
  percent_format "%s %s → %s" [AStr m; AStr p; AInt code] =
  inr (m ++ " " ++ p ++ " → " ++ decimal code).
Proof.
  intros H. cbn [percent_format str_arg]. rewrite (str_printable _ H).
  cbn. now rewrite append_nil_r.
Qed.

Lemma startup_line (port : Z) :
  printable port ->
  percent_format "Listening on http://0.0.0.0:%s/" [AInt port] =
  inr ("Listening on http://0.0.0.0:" ++ decimal port ++ "/").
Proof.
  intros H. cbn [percent_format str_arg]. now rewrite (str_printable _ H).
Qed.

(** ** The middleware *)

Lemma log_requests_response (request : Request) (call_next : Request -> M Response)
      (st st' : State) (response : Response) :
  call_next request st = (inr response, st') ->
  printable (status_code response) ->
  log_requests request call_next st =
  (inr response,
   mk_state (PORT st')
     (log st' ++ [mk_record "INFO" "app"
                    (method request ++ " " ++ path request ++ " → "
                       ++ decimal (status_code response))])).
Proof.
  intros Hnext Hcode. unfold log_requests, bind. rewrite Hnext.
  unfold logger_info. now rewrite (request_line _ _ _ Hcode).
Qed.

(** When the wrapped handler raises, the exception goes through and no line
    is written. *)
Lemma log_requests_raises (request : Request) (call_next : Request -> M Response)
      (st st' : State) (e : exn) :
  call_next request st = (inl e, st') ->
  log_requests request call_next st = (inl e, st').
Proof. intros Hnext. unfold log_requests, bind. now rewrite Hnext. Qed.

(** C4. For every request that the wrapped handler answers, the middleware
    emits exactly one log line, after the handler's own effects, and the
    line holds the method, the path and the status code of the response. *)
Theorem log_requests_one_line (request : Request) (call_next : Request -> M Response)
        (st st' : State) (response : Response) :
  call_next request st = (inr response, st') ->
  printable (status_code response) ->
  exists line code,
    snd (log_requests request call_next st) = mk_state (PORT st') (log st' ++ [line]) /\
    str (status_code response) = inr code /\
    message line = method request ++ " " ++ path request ++ " → " ++ code /\
    forall asctime,
      contains (method request) (format_record asctime line) /\
      contains (path request) (format_record asctime line) /\
      contains code (format_record asctime line).
Proof.
  intros Hnext Hcode.
  exists (mk_record "INFO" "app"
            (method request ++ " " ++ path request ++ " → "
               ++ decimal (status_code response))), (decimal (status_code response)).
  rewrite (log_requests_response _ _ _ _ _ Hnext Hcode).
  split; [reflexivity|]. split; [apply str_printable, Hcode|].
  split; [reflexivity|]. intros asctime. unfold format_record. cbn [levelname name message].
  repeat split; find_part.
Qed.

(** C5. The middleware returns what the downstream handler returned: the
    same response, status, headers and body, or the same exception, for
    every request and every handler. *)
Theorem log_requests_keeps_response (request : Request)
        (call_next : Request -> M Response) (st : State) :
  fst (log_requests request call_next st) = fst (call_next request st).
Proof.
  unfold log_requests, bind.
  destruct (call_next request st) as [[e|response] st']; [reflexivity|].
  cbn [fst]. unfold ret.
  destruct (logger_info _ _ st') as [[e|[]] st''] eqn:E; [|reflexivity].
  pose proof (logger_info_returns "%s %s → %s"
    [AStr (method request); AStr (path request); AInt (status_code response)] st') as H.
  rewrite E in H. discriminate.
Qed.

Lemma log_requests_one_line_witness :
  exists line code,
    snd (log_requests (mk_request "GET" "/healthz")
           (answer (JSONResponse [("status", "ok")])) (mk_state 8080 [])) =
      mk_state 8080 ([] ++ [line]) /\
    str 200 = inr code /\
    message line = "GET" ++ " " ++ "/healthz" ++ " → " ++ code /\
    forall asctime,
      contains "GET" (format_record asctime line) /\
      contains "/healthz" (format_record asctime line) /\
      contains code (format_record asctime line).
Proof.
  apply (log_requests_one_line (mk_request "GET" "/healthz")
           (answer (JSONResponse [("status", "ok")]))
           (mk_state 8080 []) (mk_state 8080 [])
           (JSONResponse [("status", "ok")])).
  - reflexivity.
  - unfold printable. vm_compute. discriminate.
Defined.

(** ** The routes *)

Lemma route_state (unrouted : Request -> Response) (now_utc : datetime)
      (request : Request) (st : State) :
  snd (route unrouted now_utc request st) = st.
Proof.
  unfold route.
  destruct (_ && _)%bool; [unfold bind, root; now destruct (_render_page _ _)|].
  now destruct (_ && _)%bool.
Qed.

Lemma route_root (unrouted : Request -> Response) (now_utc : datetime) (st : State) :
  route unrouted now_utc (mk_request "GET" "/") st =
  (match _render_page (strftime "%Y-%m-%d %H:%M:%S UTC" now_utc) (PORT st) with
   | inl e => inl e
   | inr content => inr (HTMLResponse content)
   end, st).
Proof.
  unfold route, bind, root, ret. cbn [method path String.eqb Ascii.eqb Bool.eqb andb].
  now destruct (_render_page _ _).
Qed.

Lemma route_healthz (unrouted : Request -> Response) (now_utc : datetime) (st : State) :
  route unrouted now_utc (mk_request "GET" "/healthz") st =
  (inr (JSONResponse [("status", "ok")]), st).
Proof. reflexivity. Qed.

Lemma log_requests_state (request : Request) (call_next : Request -> M Response)
      (st : State) :
  snd (log_requests request call_next st) =
  match call_next request st with
  | (inl _, st') => st'
  | (inr response, st') =>
      snd (logger_info "%s %s → %s"
             [AStr (method request); AStr (path request); AInt (status_code response)] st')
  end.
Proof.
  unfold log_requests, bind, ret.
  destruct (call_next request st) as [[e|response] st']; [reflexivity|].
  now destruct (logger_info _ _ st') as [[e|u] st''].
Qed.

Lemma app_port (unrouted : Request -> Response) (now_utc : datetime)
      (request : Request) (st : State) :
  PORT (snd (app unrouted now_utc request st)) = PORT st.
Proof.
  unfold app. rewrite log_requests_state.
  pose proof (route_state unrouted now_utc request st) as Hst.
  destruct (route unrouted now_utc request st) as [[e|response] st'];
    simpl in Hst; subst st'; [reflexivity|].
  apply logger_info_port.
Qed.

(** ** Startup *)

Lemma start_state (environ : environment) (st : State) :
  start environ = inr st ->
  exists port,
    read_port environ = inr port /\
    st = mk_state port
           [mk_record "INFO" "app" ("Listening on http://0.0.0.0:" ++ decimal port ++ "/")].
Proof.
  unfold start, load_module.
  destruct (read_port environ) as [e|port] eqn:Hport; [discriminate|].
  intros [= <-]. exists port. split; [reflexivity|].
  unfold _on_startup, logger_info. cbn [PORT log].
  now rewrite (startup_line _ (int_printable _ _ Hport)).
Qed.

(** The port of a running process is the one read at import. *)
Lemma reachable_port (unrouted : Request -> Response) (environ : environment)
      (st : State) :
  reachable unrouted environ st -> read_port environ = inr (PORT st).
Proof.
  induction 1 as [st Hstart | st now_utc request _ IH].
  - apply start_state in Hstart as (port & Hport & ->). exact Hport.
  - now rewrite app_port.
Qed.

Lemma reachable_printable (unrouted : Request -> Response) (environ : environment)
      (st : State) :
  reachable unrouted environ st -> printable (PORT st).
Proof.
  intros H. apply reachable_port in H. exact (int_printable _ _ H).
Qed.

Lemma status_200_printable : printable 200.
Proof. apply tcp_port_printable. lia. Qed.

(** On a running process every request is answered, by a route or by the
    framework, and leaves one more line in the log. *)
Lemma app_logs_one_line (unrouted : Request -> Response) (environ : environment)
      (st : State) (now_utc : datetime) (request : Request) :
  reachable unrouted environ st ->
  printable (status_code (unrouted request)) ->
  exists response,
    app unrouted now_utc request st =
    (inr response,
     mk_state (PORT st)
       (log st ++ [mk_record "INFO" "app"
                     (method request ++ " " ++ path request ++ " → "
                        ++ decimal (status_code response))])).
Proof.
  intros Hst Hcode. pose proof (reachable_printable _ _ _ Hst) as Hport.
  assert (Hroute : exists response,
             route unrouted now_utc request st = (inr response, st) /\
             printable (status_code response)).
  { unfold route.
    destruct (_ && _)%bool.
    - unfold bind, root, ret. rewrite (render_page_printable _ _ Hport).
      eexists. split; [reflexivity | exact status_200_printable].
    - destruct (_ && _)%bool.
      + eexists. split; [reflexivity | exact status_200_printable].
      + eexists. split; [reflexivity | exact Hcode]. }
  destruct Hroute as (response & Hroute & Hresp).
  exists response. unfold app.
  now rewrite (log_requests_response _ _ _ _ _ Hroute Hresp).
Qed.

(** C3. Every [GET /healthz], in every state of the process and so after
    any requests, is answered with status 200, the JSON content type and the
    body [{"status":"ok"}]; the handler returns that dictionary and leaves
    the state as it is. *)
Theorem healthz_always_ok (unrouted : Request -> Response) (now_utc : datetime)
        (st : State) :
  healthz st = (inr [("status", "ok")], st) /\
  fst (app unrouted now_utc (mk_request "GET" "/healthz") st) =
  inr (mk_response 200 "application/json" ("{" ++ q "status" ++ ":" ++ q "ok" ++ "}")).
Proof.
  split; [reflexivity|].
  unfold app.
  rewrite (log_requests_response _ _ _ _ _
             (route_healthz unrouted now_utc st) status_200_printable).
  reflexivity.
Qed.

(** C7. Every [GET /] on a running process is answered with status 200 and
    the HTML content type, and the body is the landing page rendered from
    the clock reading, printed as [YYYY-MM-DD HH:MM:SS UTC], and from the
    configured port; it contains both. *)
Theorem root_serves_landing_page (unrouted : Request -> Response)
        (environ : environment) (st : State) (now_utc : datetime) :
  reachable unrouted environ st ->
  clock_reading now_utc ->
  exists server_time page,
    server_time = strftime "%Y-%m-%d %H:%M:%S UTC" now_utc /\
    is_utc_timestamp server_time = true /\
    _render_page server_time (PORT st) = inr page /\
    fst (app unrouted now_utc (mk_request "GET" "/") st) =
      inr (mk_response 200 "text/html; charset=utf-8" page) /\
    contains server_time page /\
    contains (decimal (PORT st)) page.
Proof.
  intros Hst Hnow.
  pose proof (reachable_printable _ _ _ Hst) as Hport.
  eexists. eexists. split; [reflexivity|].
  split; [apply strftime_shape, Hnow|].
  split; [apply render_page_printable, Hport|].
  split.
  - unfold app. erewrite log_requests_response; [reflexivity | | exact status_200_printable].
    rewrite route_root, (render_page_printable _ _ Hport). reflexivity.
  - split; find_part.
Qed.

Lemma root_serves_landing_page_witness :
  exists server_time page,
    server_time = strftime "%Y-%m-%d %H:%M:%S UTC" (mk_datetime 2024 1 2 3 4 5) /\
    is_utc_timestamp server_time = true /\
    _render_page server_time 8080 = inr page /\
    fst (app (fun _ => mk_response 404 "application/json" EmptyString)
           (mk_datetime 2024 1 2 3 4 5) (mk_request "GET" "/")
           (mk_state 8080 [mk_record "INFO" "app" "Listening on http://0.0.0.0:8080/"])) =
      inr (mk_response 200 "text/html; charset=utf-8" page) /\
    contains server_time page /\
    contains (decimal 8080) page.
Proof.
  apply (root_serves_landing_page
           (fun _ => mk_response 404 "application/json" EmptyString)
           environ_unset
           (mk_state 8080 [mk_record "INFO" "app" "Listening on http://0.0.0.0:8080/"])
           (mk_datetime 2024 1 2 3 4 5)).
  - apply reach_start. reflexivity.
  - unfold clock_reading. simpl. lia.
Defined.

(** C9. A process that starts has logged, by the time it serves its first
    request, exactly one line, and its message is
    [Listening on http://0.0.0.0:<port>/] with the configured port. *)
Theorem startup_logs_listening_line (environ : environment) (st : State) :
  start environ = inr st ->
  exists port,
    read_port environ = inr port /\
    PORT st = port /\
    log st = [mk_record "INFO" "app"
                ("Listening on http://0.0.0.0:" ++ decimal port ++ "/")].
Proof.
  intros (port & Hport & ->)%start_state. now exists port.
Qed.

Lemma startup_logs_listening_line_witness :
  exists port,
    read_port (environ_port "9090") = inr port /\
    PORT (mk_state 9090 [mk_record "INFO" "app" "Listening on http://0.0.0.0:9090/"]) = port /\
    log (mk_state 9090 [mk_record "INFO" "app" "Listening on http://0.0.0.0:9090/"]) =
      [mk_record "INFO" "app" ("Listening on http://0.0.0.0:" ++ decimal port ++ "/")].
Proof.
  apply (startup_logs_listening_line (environ_port "9090")
           (mk_state 9090 [mk_record "INFO" "app" "Listening on http://0.0.0.0:9090/"])).
  reflexivity.
Defined.

(** ** Numerals that [int] reads *)

Lemma all_chars_forallb (f : ascii -> bool) (s : string) :
  all_chars f s = forallb f (list_ascii_of_string s).
Proof. induction s as [|c s IH]; simpl; [reflexivity | now rewrite IH]. Qed.

Lemma forallb_rev {A : Type} (f : A -> bool) (l : list A) :
  forallb f (List.rev l) = forallb f l.
Proof.
  induction l as [|x l IH]; simpl; [reflexivity|].
  rewrite forallb_app, IH. simpl. rewrite andb_true_r. apply andb_comm.
Qed.

Lemma digit_cases (c : ascii) :
  is_digit c = true ->
  In c ["0"; "1"; "2"; "3"; "4"; "5"; "6"; "7"; "8"; "9"]%char.
Proof.
  destruct c as [[] [] [] [] [] [] [] []]; vm_compute; intros H;
    try discriminate H; tauto.
Qed.

Lemma lstrip_digits (l : list ascii) : forallb is_digit l = true -> lstrip l = l.
Proof.
  destruct l as [|c l]; simpl; [reflexivity|].
  intros [Hc _]%andb_prop. apply digit_cases in Hc. simpl in Hc.
  decompose [or] Hc; subst; try reflexivity; contradiction.
Qed.

Lemma strip_digits (l : list ascii) : forallb is_digit l = true -> strip l = l.
Proof.
  intros H. unfold strip. rewrite (lstrip_digits l H).
  rewrite lstrip_digits by now rewrite forallb_rev.
  apply rev_involutive.
Qed.

Lemma take_sign_digits (l : list ascii) :
  forallb is_digit l = true -> take_sign l = (1, l).
Proof.
  destruct l as [|c l]; simpl; [reflexivity|].
  intros [Hc _]%andb_prop. apply digit_cases in Hc. simpl in Hc.
  decompose [or] Hc; subst; try reflexivity; contradiction.
Qed.

Lemma digit_run_digits_only (l : list ascii) (b : bool) :
  forallb is_digit l = true -> (l <> [] \/ b = true) -> digit_run l b = Some l.
Proof.
  revert b. induction l as [|c l IH]; intros b; simpl.
  - intros _ [H| ->]; [congruence | reflexivity].
  - intros [Hc Hl]%andb_prop _. rewrite Hc, (IH true); auto.
Qed.

Lemma of_uint_positive (d : uint) : nzhead d <> Nil -> 0 < Z.of_uint d.
Proof.
  intros Hd. unfold Z.of_uint.
  destruct (Pos.of_uint d) as [|p] eqn:E; [|lia].
  exfalso. apply Hd, unorm_0.
  rewrite <- DecimalPos.Unsigned.to_of, E. reflexivity.
Qed.

Lemma nzhead_digits_zero (l : list ascii) :
  forallb is_digit l = true ->
  nzhead (uint_of_digits l) = Nil -> forallb (Ascii.eqb "0") l = true.
Proof.
  induction l as [|c l IH]; simpl; [reflexivity|].
  intros [Hc Hl]%andb_prop. apply digit_cases in Hc. simpl in Hc.
  decompose [or] Hc; subst; simpl; try discriminate; try contradiction.
  apply IH, Hl.
Qed.

(** [int] reads a numeral of a positive integer as a positive integer. *)
Lemma int_positive_numeral (s : string) (n : Z) :
  positive_numeral s = true -> int s = inr n -> 0 < n.
Proof.
  unfold positive_numeral. rewrite !all_chars_forallb.
  intros [Hdigits Hnz%negb_true_iff]%andb_prop.
  unfold int. rewrite (strip_digits _ Hdigits), (take_sign_digits _ Hdigits).
  rewrite digit_run_digits_only; auto.
  2:{ left. intros E. rewrite E in Hnz. discriminate. }
  destruct (_ <=? _); [|discriminate]. intros [= <-].
  change (0 < 1 * Z.of_uint (uint_of_digits (list_ascii_of_string s))).
  rewrite Z.mul_1_l. apply of_uint_positive. intros E.
  apply (nzhead_digits_zero _ Hdigits) in E. congruence.
Qed.

(** ** The port configuration *)

Lemma read_port_unset (environ : environment) :
  environ "PORT" = None -> read_port environ = inr 8080.
Proof. intros H. unfold read_port, getenv. now rewrite H. Qed.

Lemma read_port_set (environ : environment) (value : string) :
  environ "PORT" = Some value -> read_port environ = int value.
Proof. intros H. unfold read_port, getenv. now rewrite H. Qed.




(** With [PORT=-1] the process starts and its port is [-1]. *)
Lemma port_not_positive :
  exists st,
    start (environ_port "-1") = inr st /\ PORT st = -1 /\ ~ 0 < PORT st.
Proof.
  eexists. split; [reflexivity|]. split; [reflexivity|]. simpl. lia.
Qed.

(** C6. At every point after startup the configured port is the integer
    read at import, which no request changes: 8080 when [PORT] is unset, a
    positive integer when [PORT] holds a numeral of one. The value is not
    checked against a range. *)
Theorem port_fixed_after_startup (unrouted : Request -> Response)
        (environ : environment) (st : State) :
  reachable unrouted environ st ->
  read_port environ = inr (PORT st) /\
  (environ "PORT" = None -> PORT st = 8080) /\
  (forall value,
      environ "PORT" = Some value -> positive_numeral value = true ->
      0 < PORT st).
Proof.
  intros Hst. pose proof (reachable_port _ _ _ Hst) as Hport.
  split; [exact Hport|]. split.
  - intros Hunset. rewrite (read_port_unset _ Hunset) in Hport. congruence.
  - intros value Hset Hnum. rewrite (read_port_set _ _ Hset) in Hport.
    exact (int_positive_numeral _ _ Hnum Hport).
Qed.

Lemma port_fixed_after_startup_witness :
  read_port (environ_port "9090") = inr 9090 /\
  (environ_port "9090" "PORT" = None -> 9090 = 8080) /\
  (forall value,
      environ_port "9090" "PORT" = Some value -> positive_numeral value = true ->
      0 < 9090).
Proof.
  apply (port_fixed_after_startup
           (fun _ => mk_response 404 "application/json" EmptyString)
           (environ_port "9090")
           (mk_state 9090 [mk_record "INFO" "app" "Listening on http://0.0.0.0:9090/"])).
  apply reach_start. reflexivity.
Defined.


(** * Further properties of the code *)

(** ** Numerals read back *)

Lemma list_ascii_app (a b : string) :
  list_ascii_of_string (a ++ b) = (list_ascii_of_string a ++ list_ascii_of_string b)%list.
Proof. induction a as [|c a IH]; simpl; [reflexivity | now rewrite IH]. Qed.

Lemma list_ascii_length (s : string) :
  length (list_ascii_of_string s) = String.length s.
Proof. induction s as [|c s IH]; simpl; [reflexivity | now rewrite IH]. Qed.

Lemma uint_of_digits_numeral (d : uint) :
  uint_of_digits (list_ascii_of_string (NilEmpty.string_of_uint d)) = d.
Proof. induction d; simpl; [reflexivity | now rewrite IHd ..]. Qed.

Lemma of_uint_to_uint (p : positive) : Z.of_uint (Pos.to_uint p) = Z.pos p.
Proof. unfold Z.of_uint. now rewrite DecimalPos.Unsigned.of_to. Qed.

Lemma numeral_nonempty (p : positive) :
  list_ascii_of_string (NilEmpty.string_of_uint (Pos.to_uint p)) <> [].
Proof.
  intros E. apply (f_equal (@length ascii)) in E.
  rewrite list_ascii_length, string_of_uint_length in E.
  apply (DecimalPos.Unsigned.to_uint_nonnil p), nb_digits_0. exact E.
Qed.

Lemma numeral_digits (p : positive) :
  forallb is_digit (list_ascii_of_string (NilEmpty.string_of_uint (Pos.to_uint p))) = true.
Proof. rewrite <- all_chars_forallb. apply string_of_uint_digits. Qed.

Lemma lstrip_head (c : ascii) (l : list ascii) :
  is_space c = false -> lstrip (c :: l) = c :: l.
Proof. simpl. now intros ->. Qed.

Lemma digit_not_space (c : ascii) : is_digit c = true -> is_space c = false.
Proof.
  intros H. apply digit_cases in H. simpl in H.
  decompose [or] H; subst; try reflexivity; contradiction.
Qed.

(** [int] reads the digits of a positive number as that number. *)
Lemma int_of_numeral (p : positive) :
  int_digits (Z.pos p) <= int_max_str_digits ->
  int (NilEmpty.string_of_uint (Pos.to_uint p)) = inr (Z.pos p).
Proof.
  intros Hlen. unfold int.
  rewrite (strip_digits _ (numeral_digits p)), (take_sign_digits _ (numeral_digits p)).
  rewrite digit_run_digits_only;
    [| apply numeral_digits | left; apply numeral_nonempty].
  rewrite list_ascii_length, uint_of_digits_numeral, of_uint_to_uint.
  unfold int_digits, decimal in Hlen. cbn [Z.abs Z.to_int NilZero.string_of_int] in Hlen.
  rewrite nilzero_nonnil in Hlen by apply DecimalPos.Unsigned.to_uint_nonnil.
  destruct (Z.leb_spec (Z.of_nat (String.length (NilEmpty.string_of_uint (Pos.to_uint p))))
              int_max_str_digits); [|lia].
  now rewrite Z.mul_1_l.
Qed.

Lemma strip_minus_numeral (l : list ascii) :
  forallb is_digit l = true -> l <> [] -> strip ("-"%char :: l) = "-"%char :: l.
Proof.
  intros Hd Hne. unfold strip. rewrite lstrip_head by reflexivity.
  assert (Hrev : exists c r, List.rev ("-"%char :: l) = c :: r /\ is_digit c = true).
  { simpl. destruct (List.rev l) as [|c r] eqn:E.
    - apply (f_equal (@List.rev ascii)) in E. rewrite rev_involutive in E. contradiction.
    - exists c, (r ++ ["-"%char])%list. split; [reflexivity|].
      assert (H : forallb is_digit (c :: r) = true) by now rewrite <- E, forallb_rev.
      simpl in H. now apply andb_prop in H. }
  destruct Hrev as (c & r & Hrev & Hc).
  rewrite Hrev, lstrip_head by now apply digit_not_space.
  rewrite <- Hrev. apply rev_involutive.
Qed.

(** [int] reads back what [str] prints. *)
Lemma int_decimal (n : Z) : printable n -> int (decimal n) = inr n.
Proof.
  unfold printable. intros Hn. destruct n as [|p|p].
  - reflexivity.
  - unfold decimal. cbn [Z.to_int NilZero.string_of_int].
    rewrite nilzero_nonnil by apply DecimalPos.Unsigned.to_uint_nonnil.
    now apply int_of_numeral.
  - unfold decimal. cbn [Z.to_int NilZero.string_of_int].
    rewrite nilzero_nonnil by apply DecimalPos.Unsigned.to_uint_nonnil.
    change (Z.neg p) with (- Z.pos p) in Hn. rewrite int_digits_opp in Hn.
    pose proof (int_of_numeral p Hn) as Hpos. unfold int in *.
    cbn [list_ascii_of_string].
    rewrite strip_minus_numeral by (apply numeral_digits || apply numeral_nonempty).
    rewrite (strip_digits _ (numeral_digits p)), (take_sign_digits _ (numeral_digits p)) in Hpos.
    cbn [take_sign].
    destruct (digit_run _ false) as [ds|]; [|discriminate].
    destruct (_ <=? _); [|discriminate].
    injection Hpos as Hpos.
    change (1 * Z.of_uint (uint_of_digits ds) = Z.pos p) in Hpos.
    f_equal. lia.
Qed.

Lemma decimal_inj (n m : Z) :
  printable n -> printable m -> decimal n = decimal m -> n = m.
Proof.
  intros Hn Hm E. apply int_decimal in Hn, Hm. rewrite E in Hn. congruence.
Qed.

(** X1. Reading back what [str] prints gives the number: for every integer
    that [str] can print, [int(str(n))] is [n]. So a process started with
    [PORT] set to the numeral of [n] runs with the port [n] and announces it
    in its startup line. *)
Theorem port_numeral_round_trip (n : Z) :
  printable n ->
  int (decimal n) = inr n /\
  start (environ_port (decimal n)) =
  inr (mk_state n
         [mk_record "INFO" "app" ("Listening on http://0.0.0.0:" ++ decimal n ++ "/")]).
Proof.
  intros Hn. pose proof (int_decimal n Hn) as Hint.
  split; [exact Hint|].
  unfold start, load_module, read_port, getenv, environ_port. cbn [String.eqb Ascii.eqb Bool.eqb].
  rewrite Hint. unfold _on_startup, logger_info. cbn [PORT log snd].
  now rewrite (startup_line _ Hn).
Qed.

Lemma port_numeral_round_trip_witness :
  int (decimal (-9090)) = inr (-9090) /\
  start (environ_port (decimal (-9090))) =
  inr (mk_state (-9090)
         [mk_record "INFO" "app" ("Listening on http://0.0.0.0:" ++ decimal (-9090) ++ "/")]).
Proof.
  apply (port_numeral_round_trip (-9090)).
  unfold printable. vm_compute. discriminate.
Defined.

(** ** White space around the port *)

Lemma lstrip_blank (b : list ascii) : forallb is_space b = true -> lstrip b = [].
Proof.
  induction b as [|c b IH]; simpl; [reflexivity|].
  intros [Hc Hb]%andb_prop. rewrite Hc. now apply IH.
Qed.

Lemma lstrip_blank_app (a l : list ascii) :
  forallb is_space a = true -> lstrip (a ++ l) = lstrip l.
Proof.
  induction a as [|c a IH]; simpl; [reflexivity|].
  intros [Hc Ha]%andb_prop. rewrite Hc. now apply IH.
Qed.

Lemma lstrip_app_blank (l b : list ascii) :
  forallb is_space b = true ->
  lstrip (l ++ b) = match lstrip l with [] => [] | _ :: _ => lstrip l ++ b end%list.
Proof.
  intros Hb. induction l as [|c l IH]; simpl.
  - now apply lstrip_blank.
  - destruct (is_space c); [exact IH | reflexivity].
Qed.

Lemma strip_blank_ends (a l b : list ascii) :
  forallb is_space a = true -> forallb is_space b = true ->
  strip (a ++ l ++ b) = strip l.
Proof.
  intros Ha Hb. unfold strip.
  rewrite (lstrip_blank_app _ _ Ha), (lstrip_app_blank _ _ Hb).
  destruct (lstrip l) as [|c m]; [reflexivity|].
  rewrite rev_app_distr, lstrip_blank_app by now rewrite forallb_rev.
  reflexivity.
Qed.

(** X2. White space around the value of [PORT] is ignored: a value padded
    with blanks, tabs or line ends at either end configures the same port,
    or fails the same way, as the value alone. *)
Theorem port_padding_ignored (before value after : string) :
  blank before = true ->
  blank after = true ->
  int (before ++ value ++ after) = int value /\
  start (environ_port (before ++ value ++ after)) = start (environ_port value).
Proof.
  unfold blank. rewrite !all_chars_forallb. intros Ha Hb.
  assert (Hint : int (before ++ value ++ after) = int value).
  { unfold int. now rewrite !list_ascii_app, (strip_blank_ends _ _ _ Ha Hb). }
  split; [exact Hint|].
  unfold start, load_module, read_port, getenv, environ_port.
  cbn [String.eqb Ascii.eqb Bool.eqb]. now rewrite Hint.
Qed.

Lemma port_padding_ignored_witness :
  int (" " ++ "8080" ++ String newline EmptyString) = int "8080" /\
  start (environ_port (" " ++ "8080" ++ String newline EmptyString)) =
  start (environ_port "8080").
Proof.
  apply (port_padding_ignored " " "8080" (String newline EmptyString)); reflexivity.
Defined.

(** ** The size of the port on the page *)

(** X3. Rendering fails exactly on a port that [str] cannot print: the page
    is returned when the port is below [10 ^ 4300] in absolute value, and
    [ValueError] is raised otherwise, whatever the time string. *)
Theorem render_page_raises_iff (server_time : string) (port : Z) :
  ((exists html, _render_page server_time port = inr html) <->
   Z.abs port < 10 ^ int_max_str_digits) /\
  (_render_page server_time port = inl ValueError <->
   10 ^ int_max_str_digits <= Z.abs port).
Proof.
  rewrite <- printable_iff. unfold _render_page, str, printable.
  destruct (Z.leb_spec (int_digits port) int_max_str_digits) as [H|H].
  - split; split; try (now eexists); try discriminate; try (intros; exact H).
    intros H'. apply Z.nlt_ge in H'. exfalso. apply H'.
    now apply printable_iff.
  - split; split; try reflexivity.
    + intros [html E]. discriminate.
    + lia.
    + intros _. apply Z.nlt_ge. intros H'. apply printable_iff in H'.
      unfold printable in H'. lia.
Qed.

(** ** What the page shows *)

Lemma inr_inj {A B : Type} (x y : B) : @inr A B x = inr y -> x = y.
Proof. now intros [= ->]. Qed.

Lemma append_inv_head (a b c : string) : a ++ b = a ++ c -> b = c.
Proof.
  induction a as [|x a IH]; simpl; [auto|]. intros [= E]. now apply IH.
Qed.

Lemma append_length (a b : string) :
  String.length (a ++ b) = (String.length a + String.length b)%nat.
Proof. induction a as [|x a IH]; simpl; [reflexivity | now rewrite IH]. Qed.

(** Two texts cut at the same place are equal part by part. *)
Lemma append_same_length (a a' b b' : string) :
  String.length a = String.length a' -> a ++ b = a' ++ b' -> a = a' /\ b = b'.
Proof.
  revert a'. induction a as [|x a IH]; intros [|x' a']; simpl; try discriminate.
  - auto.
  - intros [= Hlen] [= -> E]. destruct (IH _ Hlen E) as [-> ->]. auto.
Qed.

Lemma append_inv_tail (a b c : string) : b ++ a = c ++ a -> b = c.
Proof.
  intros E. apply (append_same_length b c a a); [|exact E].
  apply (f_equal String.length) in E. rewrite !append_length in E. lia.
Qed.

Lemma has_shape_length (p : list char_class) (s : string) :
  has_shape p s = true -> String.length s = length p.
Proof.
  revert s. induction p as [|k p IH]; intros [|c s]; simpl; try discriminate; auto.
  intros [_ Hs]%andb_prop. now rewrite (IH _ Hs).
Qed.

(** X4. The page tells the time and the port apart: two renderings, of UTC
    timestamps and of ports [str] can print, are the same document only when
    the timestamps are equal and the ports are equal. *)
Theorem render_page_injective (T T' : string) (P P' : Z) :
  is_utc_timestamp T = true -> is_utc_timestamp T' = true ->
  printable P -> printable P' ->
  _render_page T P = _render_page T' P' ->
  T = T' /\ P = P'.
Proof.
  intros HT HT' HP HP'.
  rewrite (render_page_printable _ _ HP), (render_page_printable _ _ HP').
  intros E. apply inr_inj, append_inv_head in E.
  apply append_same_length in E as [-> E].
  2:{ unfold is_utc_timestamp in *.
      now rewrite (has_shape_length _ _ HT), (has_shape_length _ _ HT'). }
  split; [reflexivity|].
  apply append_inv_head, append_inv_tail in E.
  now apply decimal_inj.
Qed.

Lemma render_page_injective_witness :
  "2024-01-02 03:04:05 UTC" = "2024-01-02 03:04:05 UTC" /\ 8080 = 8080.
Proof.
  apply (render_page_injective "2024-01-02 03:04:05 UTC" "2024-01-02 03:04:05 UTC" 8080 8080);
    try reflexivity; unfold printable; vm_compute; discriminate.
Defined.

(** X5. A time string without ["<"], a timestamp or not, cannot unbalance
    the document: for every such string and every port [str] can print, the
    page is well formed with [<html>] as its single root element. *)
Theorem plain_time_single_root (server_time : string) (port : Z) :
  plain_text server_time = true ->
  printable port ->
  exists html,
    _render_page server_time port = inr html /\ single_root_html html = true.
Proof.
  intros Hplain Hport. eexists. split; [apply render_page_printable, Hport|].
  apply page_single_root, Hplain.
Qed.

Lemma plain_time_single_root_witness :
  exists html,
    _render_page "a > b & c" 443 = inr html /\ single_root_html html = true.
Proof.
  apply (plain_time_single_root "a > b & c" 443);
    [reflexivity | unfold printable; vm_compute; discriminate].
Defined.

Lemma page_head_rows :
  unlines page_head = frame_top ++ row_open "Server Time".
Proof. vm_compute. reflexivity. Qed.

Lemma page_middle_rows :
  unlines page_middle = "</span>" ++ frame_between ++ row_open "Port".
Proof. vm_compute. reflexivity. Qed.

Lemma page_tail_rows : unlines page_tail = "</span>" ++ frame_bottom.
Proof. vm_compute. reflexivity. Qed.

(** X6. The page is a fixed frame around two labelled rows: the time string
    is the value of the row labelled [Server Time], the port that of the row
    labelled [Port], the time row first, and nothing else of the page
    depends on either input. *)
Theorem render_page_rows :
  exists top between bottom,
    forall (server_time : string) (port : Z),
      printable port ->
      _render_page server_time port =
      inr (top ++ meta_row "Server Time" server_time ++ between
             ++ meta_row "Port" (decimal port) ++ bottom).
Proof.
  exists frame_top, frame_between, frame_bottom. intros server_time port Hport.
  rewrite (render_page_printable _ _ Hport). f_equal.
  rewrite page_head_rows, page_middle_rows, page_tail_rows.
  unfold meta_row. now rewrite !append_assoc.
Qed.

Lemma render_page_rows_witness :
  exists top between bottom,
    _render_page "2024-01-02 03:04:05 UTC" 8080 =
    inr (top ++ meta_row "Server Time" "2024-01-02 03:04:05 UTC" ++ between
           ++ meta_row "Port" (decimal 8080) ++ bottom).
Proof.
  destruct render_page_rows as (top & between & bottom & H).
  exists top, between, bottom. apply H.
  unfold printable. vm_compute. discriminate.
Defined.


(** ** What the middleware leaves alone *)

Lemma state_eta (st : State) : mk_state (PORT st) (log st) = st.
Proof. now destruct st. Qed.

Lemma logger_info_adds (fmt : string) (args : list arg) (st : State) :
  exists more,
    logger_info fmt args st = (inr tt, mk_state (PORT st) (log st ++ more)) /\
    (more = [] \/ exists msg, more = [mk_record "INFO" "app" msg]).
Proof.
  unfold logger_info. destruct (percent_format fmt args) as [e|msg].
  - exists []. rewrite List.app_nil_r, state_eta. auto.
  - exists [mk_record "INFO" "app" msg]. eauto.
Qed.

Lemma log_requests_adds (request : Request) (call_next : Request -> M Response)
      (st : State) :
  exists more,
    log_requests request call_next st =
    (fst (call_next request st),
     mk_state (PORT (snd (call_next request st)))
       (log (snd (call_next request st)) ++ more)) /\
    (more = [] \/ exists msg, more = [mk_record "INFO" "app" msg]) /\
    (forall e, fst (call_next request st) = inl e -> more = []).
Proof.
  unfold log_requests, bind, ret.
  destruct (call_next request st) as [[e|response] st']; cbn [fst snd].
  - exists []. rewrite List.app_nil_r, state_eta. auto.
  - destruct (logger_info_adds "%s %s → %s"
                [AStr (method request); AStr (path request);
                 AInt (status_code response)] st') as (more & -> & Hmore).
    exists more. repeat split; [exact Hmore | discriminate].
Qed.

(** X7. The middleware only ever appends: after it, the log is the log the
    wrapped handler left, followed by at most one record, at level INFO on
    the logger [app]; the port is untouched; and when the handler raises, the
    exception goes through and nothing is written. *)
Theorem log_requests_frame (request : Request) (call_next : Request -> M Response)
        (st : State) :
  exists more,
    log (snd (log_requests request call_next st)) =
      (log (snd (call_next request st)) ++ more)%list /\
    PORT (snd (log_requests request call_next st)) =
      PORT (snd (call_next request st)) /\
    (length more <= 1)%nat /\
    Forall (fun r => levelname r = "INFO" /\ name r = "app") more /\
    (forall e, fst (call_next request st) = inl e ->
               more = [] /\ fst (log_requests request call_next st) = inl e).
Proof.
  destruct (log_requests_adds request call_next st) as (more & -> & Hmore & Hraise).
  exists more. cbn [fst snd PORT log].
  split; [reflexivity|]. split; [reflexivity|]. split; [|split].
  - destruct Hmore as [-> | [msg ->]]; simpl; lia.
  - destruct Hmore as [-> | [msg ->]]; repeat constructor.
  - intros e He. split; [now apply (Hraise e) | exact He].
Qed.

(** ** Requests no route takes *)




(** ** The log of a running process *)

Lemma app_adds (unrouted : Request -> Response) (now_utc : datetime)
      (request : Request) (st : State) :
  exists more,
    snd (app unrouted now_utc request st) = mk_state (PORT st) (log st ++ more) /\
    (more = [] \/ exists msg, more = [mk_record "INFO" "app" msg]).
Proof.
  unfold app.
  destruct (log_requests_adds request (route unrouted now_utc) st) as (more & -> & Hmore & _).
  rewrite route_state. now exists more.
Qed.

(** X9. In every state of a running process the log begins with the startup
    line of the configured port, and every record in it is at level INFO on
    the logger [app]: requests add to the log and never rewrite it. *)
Theorem reachable_log_shape (unrouted : Request -> Response)
        (environ : environment) (st : State) :
  reachable unrouted environ st ->
  (exists later, log st = startup_record (PORT st) :: later) /\
  Forall (fun r => levelname r = "INFO" /\ name r = "app") (log st).
Proof.
  induction 1 as [st Hstart | st now_utc request _ [[later IHlog] IHall]].
  - apply start_state in Hstart as (port & _ & ->). cbn [PORT log]. split.
    + now exists [].
    + repeat constructor.
  - destruct (app_adds unrouted now_utc request st) as (more & -> & Hmore).
    cbn [PORT log]. split.
    + exists (later ++ more)%list. now rewrite IHlog.
    + apply Forall_app. split; [exact IHall|].
      destruct Hmore as [-> | [msg ->]]; repeat constructor.
Qed.

Lemma reachable_log_shape_witness :
  (exists later,
      log (mk_state 8080 [startup_record 8080]) =
      startup_record (PORT (mk_state 8080 [startup_record 8080])) :: later) /\
  Forall (fun r => levelname r = "INFO" /\ name r = "app")
    (log (mk_state 8080 [startup_record 8080])).
Proof.
  apply (reachable_log_shape (fun _ => mk_response 404 "application/json" EmptyString)
           environ_unset (mk_state 8080 [startup_record 8080])).
  apply reach_start. reflexivity.
Defined.

Lemma serve_nil (unrouted : Request -> Response) (st : State) :
  serve unrouted [] st = ([], st).
Proof. reflexivity. Qed.

Lemma serve_cons (unrouted : Request -> Response) (now_utc : datetime)
      (request : Request) (rest : list (datetime * Request)) (st : State) :
  serve unrouted ((now_utc, request) :: rest) st =
  (fst (app unrouted now_utc request st)
     :: fst (serve unrouted rest (snd (app unrouted now_utc request st))),
   snd (serve unrouted rest (snd (app unrouted now_utc request st)))).
Proof.
  cbn [serve]. destruct (app unrouted now_utc request st) as [outcome st'].
  cbn [fst snd]. now destruct (serve unrouted rest st').
Qed.

(** X10. Requests served one after the other on a running process are all
    answered, none raises, and the log grows by exactly one record for each,
    in the order served, with the method and the path of the request and the
    status of its response; the port stays as it was. *)
Theorem serve_logs_each_request (unrouted : Request -> Response)
        (environ : environment) (arrivals : list (datetime * Request)) (st : State) :
  reachable unrouted environ st ->
  (forall request, printable (status_code (unrouted request))) ->
  exists responses,
    length responses = length arrivals /\
    fst (serve unrouted arrivals st) = map inr responses /\
    PORT (snd (serve unrouted arrivals st)) = PORT st /\
    log (snd (serve unrouted arrivals st)) =
      (log st ++ map (fun p => request_record (fst p) (snd p))
                   (combine (map snd arrivals) responses))%list.
Proof.
  intros Hst Hcodes. revert st Hst.
  induction arrivals as [|[now_utc request] rest IH]; intros st Hst.
  - exists []. rewrite serve_nil. cbn. now rewrite List.app_nil_r.
  - destruct (app_logs_one_line unrouted environ st now_utc request Hst (Hcodes request))
      as (response & Happ).
    pose proof (reach_request unrouted environ st now_utc request Hst) as Hnext.
    rewrite serve_cons. rewrite Happ in *. cbn [fst snd] in *.
    destruct (IH _ Hnext) as (responses & Hlen & Hout & Hport & Hlog).
    exists (response :: responses). cbn [length map combine fst snd].
    rewrite Hlen, Hout, Hport, Hlog. cbn [PORT log].
    repeat split. now rewrite <- List.app_assoc.
Qed.

Lemma serve_logs_each_request_witness :
  exists responses,
    length responses = length [(mk_datetime 2024 1 2 3 4 5, mk_request "GET" "/healthz")] /\
    fst (serve (fun _ => mk_response 404 "application/json" EmptyString)
           [(mk_datetime 2024 1 2 3 4 5, mk_request "GET" "/healthz")]
           (mk_state 8080 [startup_record 8080])) = map inr responses /\
    PORT (snd (serve (fun _ => mk_response 404 "application/json" EmptyString)
                 [(mk_datetime 2024 1 2 3 4 5, mk_request "GET" "/healthz")]
                 (mk_state 8080 [startup_record 8080]))) =
      PORT (mk_state 8080 [startup_record 8080]) /\
    log (snd (serve (fun _ => mk_response 404 "application/json" EmptyString)
                [(mk_datetime 2024 1 2 3 4 5, mk_request "GET" "/healthz")]
                (mk_state 8080 [startup_record 8080]))) =
      (log (mk_state 8080 [startup_record 8080])
         ++ map (fun p => request_record (fst p) (snd p))
              (combine (map snd [(mk_datetime 2024 1 2 3 4 5, mk_request "GET" "/healthz")])
                 responses))%list.
Proof.
  apply (serve_logs_each_request
           (fun _ => mk_response 404 "application/json" EmptyString) environ_unset
           [(mk_datetime 2024 1 2 3 4 5, mk_request "GET" "/healthz")]
           (mk_state 8080 [startup_record 8080])).
  - apply reach_start. reflexivity.
  - intros request. unfold printable. vm_compute. discriminate.
Defined.

(** ** Signed ports *)

Lemma strip_head_digits (c : ascii) (l : list ascii) :
  is_space c = false -> forallb is_digit l = true -> l <> [] ->
  strip (c :: l) = c :: l.
Proof.
  intros Hc Hd Hne. unfold strip. rewrite lstrip_head by exact Hc.
  assert (Hrev : exists d r, List.rev (c :: l) = d :: r /\ is_digit d = true).
  { simpl. destruct (List.rev l) as [|d r] eqn:E.
    - apply (f_equal (@List.rev ascii)) in E. rewrite rev_involutive in E. contradiction.
    - exists d, (r ++ [c])%list. split; [reflexivity|].
      assert (H : forallb is_digit (d :: r) = true) by now rewrite <- E, forallb_rev.
      simpl in H. now apply andb_prop in H. }
  destruct Hrev as (d & r & Hrev & Hdigit).
  rewrite Hrev, lstrip_head by now apply digit_not_space.
  rewrite <- Hrev. apply rev_involutive.
Qed.

Lemma int_digits_only (v : string) (n : Z) :
  all_chars is_digit v = true -> int v = inr n ->
  list_ascii_of_string v <> [] /\
  Z.of_nat (length (list_ascii_of_string v)) <= int_max_str_digits /\
  n = Z.of_uint (uint_of_digits (list_ascii_of_string v)).
Proof.
  rewrite all_chars_forallb. intros Hd. unfold int.
  rewrite (strip_digits _ Hd), (take_sign_digits _ Hd).
  destruct (list_ascii_of_string v) as [|c l] eqn:E; [discriminate|].
  rewrite digit_run_digits_only by (auto; left; discriminate).
  destruct (Z.leb_spec (Z.of_nat (length (c :: l))) int_max_str_digits); [|discriminate].
  intros H'. apply inr_inj in H'. subst n.
  repeat split; [discriminate | assumption | ].
  now rewrite Z.mul_1_l.
Qed.

(** X11. The port may carry a sign, and no range is enforced: when [PORT]
    holds digits that read as [n], the same digits after ["+"] read as [n]
    and after ["-"] as [- n], and with the latter the process starts, with
    the port [- n] in its state and in its startup line. *)
Theorem signed_port_accepted (v : string) (n : Z) :
  all_chars is_digit v = true ->
  int v = inr n ->
  int ("+" ++ v) = inr n /\
  int ("-" ++ v) = inr (- n) /\
  start (environ_port ("-" ++ v)) = inr (mk_state (- n) [startup_record (- n)]).
Proof.
  intros Hd Hint.
  destruct (int_digits_only v n Hd Hint) as (Hne & Hlen & ->).
  rewrite all_chars_forallb in Hd.
  assert (Hplus : int ("+" ++ v) = inr (Z.of_uint (uint_of_digits (list_ascii_of_string v)))).
  { unfold int. cbn [append list_ascii_of_string].
    rewrite strip_head_digits by (reflexivity || assumption). cbn [take_sign].
    rewrite digit_run_digits_only by auto.
    destruct (Z.leb_spec (Z.of_nat (length (list_ascii_of_string v))) int_max_str_digits);
      [|lia].
    first [reflexivity | f_equal; lia]. }
  assert (Hminus : int ("-" ++ v) = inr (- Z.of_uint (uint_of_digits (list_ascii_of_string v)))).
  { unfold int. cbn [append list_ascii_of_string].
    rewrite strip_head_digits by (reflexivity || assumption). cbn [take_sign].
    rewrite digit_run_digits_only by auto.
    destruct (Z.leb_spec (Z.of_nat (length (list_ascii_of_string v))) int_max_str_digits);
      [|lia].
    first [reflexivity | f_equal; lia]. }
  split; [exact Hplus|]. split; [exact Hminus|].
  unfold start, load_module, read_port, getenv, environ_port.
  cbn [String.eqb Ascii.eqb Bool.eqb]. rewrite Hminus.
  unfold _on_startup, logger_info, startup_record. cbn [PORT log snd].
  now rewrite (startup_line _ (int_printable _ _ Hminus)).
Qed.

Lemma signed_port_accepted_witness :
  int ("+" ++ "8080") = inr 8080 /\
  int ("-" ++ "8080") = inr (- 8080) /\
  start (environ_port ("-" ++ "8080")) =
    inr (mk_state (- 8080) [startup_record (- 8080)]).
Proof.
  apply (signed_port_accepted "8080" 8080); reflexivity.
Defined.

(** ** The time on the page *)

Lemma two_digits_read_back (n : Z) : 0 <= n <= 99 -> int (two_digits n) = inr n.
Proof.
  intros Hn.
  assert (H : match int (two_digits n) with inr v => v =? n | inl _ => false end = true).
  { apply (holds_from_spec
             (fun z => match int (two_digits z) with inr v => v =? z | inl _ => false end)
             (Z.to_nat 100) 0); [vm_compute; reflexivity | lia]. }
  destruct (int (two_digits n)) as [e|v]; [discriminate|].
  apply Z.eqb_eq in H. now subst.
Qed.

Lemma two_digits_inj (n m : Z) :
  0 <= n <= 99 -> 0 <= m <= 99 -> two_digits n = two_digits m -> n = m.
Proof.
  intros Hn Hm E. apply two_digits_read_back in Hn, Hm. rewrite E in Hn. congruence.
Qed.

Lemma two_digits_length (n : Z) : 0 <= n <= 99 -> String.length (two_digits n) = 2%nat.
Proof. intros Hn. now rewrite (has_shape_length _ _ (two_digits_shape n Hn)). Qed.

Lemma year_length (y : Z) : 1000 <= y <= 9999 -> String.length (decimal y) = 4%nat.
Proof. intros Hy. now rewrite (has_shape_length _ _ (year_shape y Hy)). Qed.

Lemma cons_inj (c : ascii) (a b : string) : String c a = String c b -> a = b.
Proof. now intros [= ->]. Qed.

(** X12. The time on the page identifies the clock reading to the second:
    two readings that print the same under the format of [root] have the
    same year, month, day, hour, minute and second. *)
Theorem strftime_injective (dt dt' : datetime) :
  clock_reading dt -> clock_reading dt' ->
  strftime "%Y-%m-%d %H:%M:%S UTC" dt = strftime "%Y-%m-%d %H:%M:%S UTC" dt' ->
  dt = dt'.
Proof.
  intros (Hy & Hm & Hd & HH & HM & HS) (Hy' & Hm' & Hd' & HH' & HM' & HS').
  cbn [strftime]. intros E.
  apply append_same_length in E as [Ey E];
    [|now rewrite !year_length].
  apply cons_inj in E.
  apply append_same_length in E as [Em E];
    [|rewrite !two_digits_length; lia].
  apply cons_inj in E.
  apply append_same_length in E as [Ed E];
    [|rewrite !two_digits_length; lia].
  apply cons_inj in E.
  apply append_same_length in E as [EH E];
    [|rewrite !two_digits_length; lia].
  apply cons_inj in E.
  apply append_same_length in E as [EM E];
    [|rewrite !two_digits_length; lia].
  apply cons_inj in E.
  apply append_same_length in E as [ES _];
    [|rewrite !two_digits_length; lia].
  apply decimal_inj in Ey; [|apply tcp_port_printable; lia ..].
  apply two_digits_inj in Em, Ed, EH, EM, ES; try lia.
  destruct dt, dt'. cbn in *. congruence.
Qed.

Lemma strftime_injective_witness :
  mk_datetime 2024 1 2 3 4 5 = mk_datetime 2024 1 2 3 4 5.
Proof.
  apply (strftime_injective (mk_datetime 2024 1 2 3 4 5) (mk_datetime 2024 1 2 3 4 5));
    try reflexivity; unfold clock_reading; simpl; lia.
Defined.

